(** * A shallow embedding of the logging facade of [logger.go]

    The facade wraps a leveled-record engine (zap's [SugaredLogger]) and a
    bank of per-level line counters (a Prometheus [CounterVec] labelled by
    level).  Both collaborators are modelled by explicit state: the counter
    bank is a finite map from level labels to naturals, the engine appends
    the records it is handed to a trace, and the control effects of Go
    ([panic], [os.Exit]) are the non-normal outcomes of a small state and
    outcome monad. *)

From Stdlib Require Import ZArith List Ascii String Lia.
From stdpp Require Import base gmap strings list fin_maps pretty.

Local Open Scope string_scope.
Local Open Scope list_scope.

(** ** Levels (zapcore.Level) *)

Inductive Level : Type :=
  | DebugLevel
  | InfoLevel
  | WarnLevel
  | ErrorLevel
  | DPanicLevel
  | PanicLevel
  | FatalLevel.

(** The numeric value of a level: zapcore declares them as consecutive
    [int8] constants starting at [DebugLevel = -1]. *)
Definition Level_int (lv : Level) : Z :=
  match lv with
  | DebugLevel => -1
  | InfoLevel => 0
  | WarnLevel => 1
  | ErrorLevel => 2
  | DPanicLevel => 3
  | PanicLevel => 4
  | FatalLevel => 5
  end.

(** [Level.String()]: the lower-case name used as the counter label. *)
Definition Level_String (lv : Level) : string :=
  match lv with
  | DebugLevel => "debug"
  | InfoLevel => "info"
  | WarnLevel => "warn"
  | ErrorLevel => "error"
  | DPanicLevel => "dpanic"
  | PanicLevel => "panic"
  | FatalLevel => "fatal"
  end.

Definition all_levels : list Level :=
  [DebugLevel; InfoLevel; WarnLevel; ErrorLevel; DPanicLevel; PanicLevel; FatalLevel].

(** [LevelEnabler.Enabled]: a record at [lv] passes a core whose active level
    is [active] when [lv >= active]. *)
Definition Enabled (active lv : Level) : bool :=
  (Level_int active <=? Level_int lv)%Z.

(** ** Errors (the [error] interface and github.com/pkg/errors) *)

(** A non-nil error value: a leaf message, or a cause wrapped with a
    context message by [errors.Wrap]. *)
Inductive err : Type :=
  | ErrNew (msg : string)
  | ErrWrap (cause : err) (msg : string).

(** Go's [error] interface value; [None] is [nil]. *)
Definition error : Type := option err.

(** [e.Error()]: a wrapped error prints as [msg: cause]. *)
Fixpoint Error (e : err) : string :=
  match e with
  | ErrNew msg => msg
  | ErrWrap cause msg => msg +:+ ": " +:+ Error cause
  end.

(** [errors.Wrap(err, message)]: nil stays nil. *)
Definition Wrap (e : error) (message : string) : error :=
  match e with
  | None => None
  | Some c => Some (ErrWrap c message)
  end.

(** ** Dynamic values ([interface{}]) and default formatting *)

Inductive Value : Type :=
  | VString (s : string)
  | VInt (n : Z)
  | VBool (b : bool)
  | VError (e : err)
  | VNil.

(** The [%v] rendering of one operand. *)
Definition format_v (v : Value) : string :=
  match v with
  | VString s => s
  | VInt n => pretty n
  | VBool true => "true"
  | VBool false => "false"
  | VError e => Error e
  | VNil => "<nil>"
  end.

Definition is_VString (v : Value) : bool :=
  match v with VString _ => true | _ => false end.

(** [fmt.Sprint]: operands in their default format, a space between two
    operands when neither is a string. *)
Fixpoint Sprint_from (prev : Value) (args : list Value) : string :=
  match args with
  | [] => ""
  | a :: rest =>
      (if is_VString prev || is_VString a then "" else " ")
        +:+ format_v a +:+ Sprint_from a rest
  end.

Definition Sprint (args : list Value) : string :=
  match args with
  | [] => ""
  | a :: rest => format_v a +:+ Sprint_from a rest
  end.

(** [string(b)] for a byte slice: the same bytes, read as a string. *)
Definition string_of_bytes (b : list Byte.byte) : string :=
  string_of_list_byte b.

(** ** Records handed to the engine *)

Definition Field : Type := (string * Value)%type.

Record Entry : Type := mkEntry {
  e_level : Level;
  e_msg : string;
  e_fields : list Field
}.

(** ** The engine handle ([*zap.SugaredLogger]) *)

Record SugaredLogger : Type := mkSugared {
  s_level : Level;               (* the active level of the core *)
  s_context : list Field;        (* fields attached by [With] *)
  s_outputs : list string;       (* OutputPaths the core writes to *)
  s_errOutputs : list string;    (* ErrorOutputPaths *)
  s_callerSkip : nat
}.

(** Logger holds a field for the logger interface. *)
Record logger : Type := mklogger { l : SugaredLogger }.

(** [zap.Config], restricted to the fields the facade reads or writes. *)
Record Config : Type := mkConfig {
  Level_ : Level;
  Encoding : string;
  OutputPaths : list string;
  ErrorOutputPaths : list string
}.

(** ** Trace spans (go.opentelemetry.io/otel/trace) *)

Record SpanVal : Type := mkSpan { span_TraceID : string }.

(** A [trace.Span] interface value; [None] is [nil]. *)
Definition Span : Type := option SpanVal.

Definition TraceId : string := "TraceID".

(** ** The state of the process *)

Record World : Type := mkWorld {
  counters : gmap string nat;    (* lineCounter: label -> value *)
  attempts : list Entry;         (* records handed to the engine, oldest first *)
  delivered : list Entry;        (* records the engine wrote to its sinks *)
  sink_ok : bool;                (* whether a write to the sinks succeeds *)
  flush_err : error;             (* what flushing the sinks returns *)
  broken_sinks : list string;    (* destinations that fail to open *)
  stdlog : list string;          (* lines printed by the standard [log] package *)
  pkg_l : option logger;         (* the package variable [l] *)
  vars : gmap string Z           (* the caller's own state *)
}.

Definition set_counters (f : gmap string nat -> gmap string nat) (w : World) : World :=
  mkWorld (f (counters w)) (attempts w) (delivered w) (sink_ok w) (flush_err w)
          (broken_sinks w) (stdlog w) (pkg_l w) (vars w).

Definition add_attempt (e : Entry) (w : World) : World :=
  mkWorld (counters w) (attempts w ++ [e]) (delivered w) (sink_ok w) (flush_err w)
          (broken_sinks w) (stdlog w) (pkg_l w) (vars w).

Definition add_delivered (e : Entry) (w : World) : World :=
  mkWorld (counters w) (attempts w) (delivered w ++ [e]) (sink_ok w) (flush_err w)
          (broken_sinks w) (stdlog w) (pkg_l w) (vars w).

Definition add_stdlog (s : string) (w : World) : World :=
  mkWorld (counters w) (attempts w) (delivered w) (sink_ok w) (flush_err w)
          (broken_sinks w) (stdlog w ++ [s]) (pkg_l w) (vars w).

Definition set_vars (f : gmap string Z -> gmap string Z) (w : World) : World :=
  mkWorld (counters w) (attempts w) (delivered w) (sink_ok w) (flush_err w)
          (broken_sinks w) (stdlog w) (pkg_l w) (f (vars w)).

(** ** Outcomes and the monad of facade operations *)

(** How a Go call ends: it returns, it panics with a value, or it ends the
    process with an exit code. *)
Inductive Outcome (A : Type) : Type :=
  | Returned (a : A)
  | Panicked (v : string)
  | Exited (code : Z).

Arguments Returned {A} a.
Arguments Panicked {A} v.
Arguments Exited {A} code.

Definition M (A : Type) : Type := World -> Outcome A * World.

Definition ret {A} (a : A) : M A := fun w => (Returned a, w).

Definition bind {A B} (m : M A) (k : A -> M B) : M B :=
  fun w =>
    match m w with
    | (Returned a, w') => k a w'
    | (Panicked v, w') => (Panicked v, w')
    | (Exited c, w') => (Exited c, w')
    end.

Notation "x <-- m ;; k" := (bind m (fun x => k))
  (at level 62, m at next level, right associativity, only parsing).
Notation "m ;;; k" := (bind m (fun _ => k))
  (at level 62, right associativity, only parsing).

Definition modify (f : World -> World) : M unit := fun w => (Returned tt, f w).
Definition panic {A} (v : string) : M A := fun w => (Panicked v, w).
Definition os_Exit {A} (code : Z) : M A := fun w => (Exited code, w).

Definition outcome_of {A} (r : Outcome A * World) : Outcome A := fst r.
Definition world_of {A} (r : Outcome A * World) : World := snd r.

Definition returns {A} (o : Outcome A) : bool :=
  match o with Returned _ => true | _ => false end.

Definition gets {A} (f : World -> A) : M A := fun w => (Returned (f w), w).

(** ** The counter bank (Prometheus [CounterVec] with the label "level")

    A counter handle is the label its metric is stored under.  Counter
    values are naturals here; the float representation of the backend is
    not modelled. *)

(** [vec.WithLabelValues(lbl)]: get the metric, creating it at zero first
    when it does not exist yet. *)
Definition WithLabelValues (lbl : string) (vec : gmap string nat) : gmap string nat :=
  match vec !! lbl with
  | Some _ => vec
  | None => <[lbl := 0]> vec
  end.

Definition debugLineCounter : string := Level_String DebugLevel.
Definition infoLineCounter : string := Level_String InfoLevel.
Definition warnLineCounter : string := Level_String WarnLevel.
Definition errorLineCounter : string := Level_String ErrorLevel.
Definition dPanicLineCounter : string := Level_String DPanicLevel.
Definition panicLineCounter : string := Level_String PanicLevel.
Definition fatalLineCounter : string := Level_String FatalLevel.

(** The value of the package variable [lineCounter] once the [var] block
    has run: a fresh vector in which the seven handles were looked up, in
    the order of their declarations. *)
Definition lineCounter : gmap string nat :=
  WithLabelValues fatalLineCounter
    (WithLabelValues panicLineCounter
      (WithLabelValues dPanicLineCounter
        (WithLabelValues errorLineCounter
          (WithLabelValues warnLineCounter
            (WithLabelValues infoLineCounter
              (WithLabelValues debugLineCounter ∅)))))).

(** The value a handle shows. *)
Definition value_at (c : string) (vec : gmap string nat) : nat :=
  default 0 (vec !! c).

Definition counter (lv : Level) (w : World) : nat :=
  value_at (Level_String lv) (counters w).

(** [c.Inc()]. *)
Definition Inc (c : string) : M unit :=
  modify (set_counters (fun vec => <[c := S (value_at c vec)]> vec)).

(** ** Callbacks *)

(** A [func() error] value: the name the runtime reports for it and what a
    call does. *)
Record Func : Type := mkFunc {
  fn_name : string;
  fn_call : M error
}.

Definition value_of_error (e : error) : Value :=
  match e with
  | Some e' => VError e'
  | None => VNil
  end.

(** ** The engine

    The leveled-record engine is an external collaborator.  Its model keeps
    what the facade relies on: records below the active level are dropped,
    write failures are swallowed, a record at Panic level panics with the
    message after it is written, a record at Fatal level ends the process
    with status 1, and flushing returns the error of the sinks.  The ghost
    trace [attempts] records every record handed to the engine, delivered
    or not. *)

Definition _oddNumberOfKeysErr : string := "Ignored key without a value.".
Definition _nonStringKeyErr : string := "Ignored key-value pairs with non-string keys.".

(** The pairing done by [sweetenFields]: the fields with a string key, the
    dangling last key if any, and the pairs whose key is not a string. *)
Fixpoint sweeten_pairs (args : list Value)
  : list Field * option Value * list (Value * Value) :=
  match args with
  | [] => ([], None, [])
  | [k] => ([], Some k, [])
  | k :: v :: rest =>
      let '(fs, dangling, invalid) := sweeten_pairs rest in
      match k with
      | VString ks => ((ks, v) :: fs, dangling, invalid)
      | _ => (fs, dangling, (k, v) :: invalid)
      end
  end.

Definition core_write (s : SugaredLogger) (e : Entry) : M unit :=
  modify (fun w =>
    if Enabled (s_level s) (e_level e) && sink_ok w then add_delivered e w else w).

(** [s.sweetenFields(args)]: the engine reports a dangling key and
    non-string keys through its own DPanic records, which do not panic in a
    production configuration. *)
Definition sweetenFields (s : SugaredLogger) (args : list Value) : M (list Field) :=
  let '(fs, dangling, invalid) := sweeten_pairs args in
  (match dangling with
   | Some k =>
       core_write s (mkEntry DPanicLevel _oddNumberOfKeysErr (s_context s ++ [("ignored", k)]))
   | None => ret tt
   end) ;;;
  (match invalid with
   | [] => ret tt
   | _ :: _ => core_write s (mkEntry DPanicLevel _nonStringKeyErr (s_context s))
   end) ;;;
  ret fs.

(** [s.With(args...)]: a new handle with the fields added; the receiver is
    not changed. *)
Definition Sugared_With (s : SugaredLogger) (args : list Value) : M SugaredLogger :=
  fs <-- sweetenFields s args ;;
  ret (mkSugared (s_level s) (s_context s ++ fs) (s_outputs s) (s_errOutputs s)
                 (s_callerSkip s)).

(** [s.Sync()]. *)
Definition Sugared_Sync (s : SugaredLogger) : M error := gets flush_err.

(** The standard library's [log.Fatal]: print, then [os.Exit(1)]. *)
Definition log_Fatal {A} (line : string) : M A :=
  modify (add_stdlog line) ;;; os_Exit 1.

(** [zap.NewProductionConfig()]. *)
Definition NewProductionConfig : Config :=
  mkConfig InfoLevel "json" ["stderr"] ["stderr"].

Definition opens (w : World) (path : string) : bool :=
  bool_decide (path ∉ broken_sinks w).

(** [config.Build(zap.AddCallerSkip(skip))]: fails when a destination cannot
    be opened. *)
Definition Config_Build (config : Config) (skip : nat) : M (SugaredLogger + err) :=
  fun w =>
    if forallb (opens w) (OutputPaths config ++ ErrorOutputPaths config)
    then (Returned (inl (mkSugared (Level_ config) [] (OutputPaths config)
                                   (ErrorOutputPaths config) skip)), w)
    else (Returned (inr (ErrNew "couldn't open sink")), w).

(** ** Sample inputs

    A freshly initialised process with a production logger at Info level, a
    trace span, a callback that fails after touching the caller's state, and
    stand-ins for the two functions defined outside [logger.go]. *)

Definition sample_world : World :=
  mkWorld lineCounter [] [] true None [] [] None ∅.

Definition sample_logger : logger :=
  mklogger (mkSugared InfoLevel [] ["stderr"] ["stderr"] 1).

Definition sample_span : Span :=
  Some (mkSpan "4bf92f3577b34da6a3ce929d0e0e4736").

Definition closeFile : Func :=
  mkFunc "main.closeFile"
         (fun w => (Returned (Some (ErrNew "disk full")),
                    set_vars (<["closed" := 1%Z]>) w)).

(** A format string without verbs is printed as it is. *)
Definition sample_Sprintf (format : string) (values : list Value) : string := format.

Definition sample_logFileURI (dir : string) : string := dir +:+ "/log.jsonl".

(** [bytes.ToLower] on ASCII text. *)
Definition lower_ascii (c : ascii) : ascii :=
  let n := nat_of_ascii c in
  if (65 <=? n)%nat && (n <=? 90)%nat then ascii_of_nat (n + 32) else c.

Fixpoint sample_ToLower (s : string) : string :=
  match s with
  | EmptyString => EmptyString
  | String c rest => String (lower_ascii c) (sample_ToLower rest)
  end.

Section Facade.

(** [fmt.Sprintf] and the platform's [logFileURI] are defined outside
    [logger.go]; the facade is parametric in them. *)
Variable Sprintf : string -> list Value -> string.
Variable logFileURI : string -> string.

(** The message of a record: the template alone, the arguments printed by
    [Sprint] when the template is empty, [Sprintf] otherwise. *)
Definition getMessage (template : string) (fmtArgs : list Value) : string :=
  match fmtArgs with
  | [] => template
  | _ :: _ => if bool_decide (template = "") then Sprint fmtArgs
              else Sprintf template fmtArgs
  end.

(** [s.log(lvl, template, fmtArgs, context)], the common body of the
    engine's emission methods. *)
Definition Sugared_log (s : SugaredLogger) (lvl : Level) (template : string)
    (fmtArgs context : list Value) : M unit :=
  let msg := getMessage template fmtArgs in
  modify (add_attempt (mkEntry lvl msg (s_context s ++ (sweeten_pairs context).1.1))) ;;;
  if (Level_int lvl <? Level_int DPanicLevel)%Z && negb (Enabled (s_level s) lvl)
  then ret tt
  else
    fields <-- sweetenFields s context ;;
    core_write s (mkEntry lvl msg (s_context s ++ fields)) ;;;
    match lvl with
    | PanicLevel => panic msg
    | FatalLevel => os_Exit 1
    | _ => ret tt
    end.

Definition Sugared_Debug s (args : list Value) := Sugared_log s DebugLevel "" args [].
Definition Sugared_Info s (args : list Value) := Sugared_log s InfoLevel "" args [].
Definition Sugared_Warn s (args : list Value) := Sugared_log s WarnLevel "" args [].
Definition Sugared_Error s (args : list Value) := Sugared_log s ErrorLevel "" args [].
Definition Sugared_Panic s (args : list Value) := Sugared_log s PanicLevel "" args [].
Definition Sugared_Fatal s (args : list Value) := Sugared_log s FatalLevel "" args [].
Definition Sugared_Debugw s msg (kvs : list Value) := Sugared_log s DebugLevel msg [] kvs.
Definition Sugared_Infow s msg (kvs : list Value) := Sugared_log s InfoLevel msg [] kvs.
Definition Sugared_Warnw s msg (kvs : list Value) := Sugared_log s WarnLevel msg [] kvs.
Definition Sugared_Errorw s msg (kvs : list Value) := Sugared_log s ErrorLevel msg [] kvs.

(** ** The facade ([logger.go]) *)

(** Write logs a message at the Info level and returns the length of the
    given bytes. *)
Definition logger_Write (log : logger) (b : list Byte.byte) : M (Z * error) :=
  Sugared_Info (l log) [VString (string_of_bytes b)] ;;;
  ret (Z.of_nat (length b), None).

(** The configuration [CreateProductionLogger] hands to [Build]. *)
Definition productionConfig (dir : string) (jsonConsole : bool) (lvl : Level)
    (toDisk : bool) : Config :=
  let config := NewProductionConfig in
  let config :=
    if negb jsonConsole
    then mkConfig (Level_ config) (Encoding config) ["pretty://console"]
                  (ErrorOutputPaths config)
    else config in
  let config :=
    if toDisk
    then
      let destination := logFileURI dir in
      mkConfig (Level_ config) (Encoding config)
               (OutputPaths config ++ [destination])
               (ErrorOutputPaths config ++ [destination])
    else config in
  mkConfig lvl (Encoding config) (OutputPaths config) (ErrorOutputPaths config).

(** CreateProductionLogger returns a log config for the passed directory
    with the given LogLevel and customizes stdout for pretty printing. *)
Definition CreateProductionLogger (dir : string) (jsonConsole : bool) (lvl : Level)
    (toDisk : bool) : M SugaredLogger :=
  let config := productionConfig dir jsonConsole lvl toDisk in
  r <-- Config_Build config 1 ;;
  match r with
  | inr e => Inc fatalLineCounter ;;; log_Fatal (Error e)
  | inl zl => ret zl
  end.

(** Infow logs an info message and any additional given information. *)
Definition logger_Infow (log : logger) (msg : string) (keysAndValues : list Value) : M unit :=
  Sugared_Infow (l log) msg keysAndValues ;;;
  Inc infoLineCounter.

(** The package-level [Infow], which goes through the package variable [l]. *)
Definition Infow (msg : string) (keysAndValues : list Value) : M unit :=
  g <-- gets pkg_l ;;
  match g with
  | None => panic "runtime error: invalid memory address or nil pointer dereference"
  | Some lg => logger_Infow lg msg keysAndValues
  end ;;;
  Inc infoLineCounter.

(** Debugw logs a debug message and any additional given information. *)
Definition logger_Debugw (log : logger) (msg : string) (keysAndValues : list Value) : M unit :=
  Sugared_Debugw (l log) msg keysAndValues ;;;
  Inc debugLineCounter.

(** Warnw logs a debug message and any additional given information. *)
Definition logger_Warnw (log : logger) (msg : string) (keysAndValues : list Value) : M unit :=
  Sugared_Warnw (l log) msg keysAndValues ;;;
  Inc warnLineCounter.

(** Errorw logs an error message, any additional given information, and
    includes stack trace. *)
Definition logger_Errorw (log : logger) (msg : string) (keysAndValues : list Value) : M unit :=
  Sugared_Errorw (l log) msg keysAndValues ;;;
  Inc errorLineCounter.

(** Infof formats and then logs the message. *)
Definition logger_Infof (log : logger) (format : string) (values : list Value) : M unit :=
  Sugared_Info (l log) [VString (Sprintf format values)] ;;;
  Inc infoLineCounter.

(** Debugf formats and then logs the message. *)
Definition logger_Debugf (log : logger) (format : string) (values : list Value) : M unit :=
  Sugared_Debug (l log) [VString (Sprintf format values)] ;;;
  Inc debugLineCounter.

(** Warnf formats and then logs the message as Warn. *)
Definition logger_Warnf (log : logger) (format : string) (values : list Value) : M unit :=
  Sugared_Warn (l log) [VString (Sprintf format values)] ;;;
  Inc warnLineCounter.

(** Panicf formats and then logs the message before panicking. *)
Definition logger_Panicf (log : logger) (format : string) (values : list Value) : M unit :=
  Sugared_Panic (l log) [VString (Sprintf format values)] ;;;
  Inc panicLineCounter.

(** Info logs an info message. *)
Definition logger_Info (log : logger) (args : list Value) : M unit :=
  Sugared_Info (l log) args ;;;
  Inc infoLineCounter.

(** Debug logs a debug message. *)
Definition logger_Debug (log : logger) (args : list Value) : M unit :=
  Sugared_Debug (l log) args ;;;
  Inc debugLineCounter.

(** Warn logs a message at the warn level. *)
Definition logger_Warn (log : logger) (args : list Value) : M unit :=
  Sugared_Warn (l log) args ;;;
  Inc warnLineCounter.

(** Error logs an error message. *)
Definition logger_Error (log : logger) (args : list Value) : M unit :=
  Sugared_Error (l log) args ;;;
  Inc errorLineCounter.

(** WarnIf logs the error if present. *)
Definition logger_WarnIf (log : logger) (e : error) : M unit :=
  match e with
  | Some e' =>
      Sugared_Warn (l log) [VError e'] ;;;
      Inc warnLineCounter
  | None => ret tt
  end.

(** ErrorIf logs the error if present. *)
Definition logger_ErrorIf (log : logger) (e : error) (optionalMsg : list string) : M unit :=
  match e with
  | Some _ =>
      match optionalMsg with
      | msg0 :: _ => Sugared_Error (l log) [value_of_error (Wrap e msg0)]
      | [] => Sugared_Error (l log) [value_of_error e]
      end ;;;
      Inc errorLineCounter
  | None => ret tt
  end.

(** ErrorIfCalling calls the given function and logs the error of it if
    there is. *)
Definition logger_ErrorIfCalling (log : logger) (f : Func) (optionalMsg : list string)
  : M unit :=
  e <-- fn_call f ;;
  match e with
  | Some _ =>
      let e1 := Wrap e (fn_name f) in
      match optionalMsg with
      | msg0 :: _ => Sugared_Error (l log) [value_of_error (Wrap e1 msg0)]
      | [] => Sugared_Error (l log) [value_of_error e1]
      end ;;;
      Inc errorLineCounter
  | None => ret tt
  end.

(** PanicIf logs the error if present. *)
Definition logger_PanicIf (log : logger) (e : error) : M unit :=
  match e with
  | Some e' => Sugared_Panic (l log) [VError e']
  | None => ret tt
  end.

(** Fatal logs a fatal message then exits the application. *)
Definition logger_Fatal (log : logger) (args : list Value) : M unit :=
  Inc fatalLineCounter ;;;
  Sugared_Fatal (l log) args.

(** Errorf logs a message at the error level using Sprintf. *)
Definition logger_Errorf (log : logger) (format : string) (values : list Value) : M unit :=
  Sugared_Error (l log) [VString (Sprintf format values)] ;;;
  Inc errorLineCounter.

(** Fatalf logs a message at the fatal level using Sprintf. *)
Definition logger_Fatalf (log : logger) (format : string) (values : list Value) : M unit :=
  Sugared_Fatal (l log) [VString (Sprintf format values)] ;;;
  Inc fatalLineCounter.

(** Panic logs a panic message then panics. *)
Definition logger_Panic (log : logger) (args : list Value) : M unit :=
  Sugared_Panic (l log) args ;;;
  Inc panicLineCounter.

(** WithSpan adds span to the log message.  The method has no result, and
    the handle [With] returns is dropped. *)
Definition logger_WithSpan (log : logger) (span : Span) : M unit :=
  match span with
  | Some sp =>
      _ <-- Sugared_With (l log) [VString TraceId; VString (span_TraceID sp)] ;;
      ret tt
  | None => ret tt
  end.

(** Sync flushes any buffered log entries. *)
Definition logger_Sync (log : logger) : M error :=
  Sugared_Sync (l log).

(** ** The exported operations as data *)

Inductive Op : Type :=
  | OpWithSpan (span : Span)
  | OpInfo (args : list Value)
  | OpInfow (msg : string) (keysAndValues : list Value)
  | OpInfof (format : string) (values : list Value)
  | OpDebug (args : list Value)
  | OpDebugw (msg : string) (keysAndValues : list Value)
  | OpDebugf (format : string) (values : list Value)
  | OpWarn (args : list Value)
  | OpWarnw (msg : string) (keysAndValues : list Value)
  | OpWarnf (format : string) (values : list Value)
  | OpWarnIf (e : error)
  | OpError (args : list Value)
  | OpErrorw (msg : string) (keysAndValues : list Value)
  | OpErrorf (format : string) (values : list Value)
  | OpErrorIf (e : error) (optionalMsg : list string)
  | OpErrorIfCalling (f : Func) (optionalMsg : list string)
  | OpPanic (args : list Value)
  | OpPanicf (format : string) (values : list Value)
  | OpPanicIf (e : error)
  | OpFatal (args : list Value)
  | OpFatalf (format : string) (values : list Value)
  | OpSync
  | OpWrite (b : list Byte.byte)
  | OpPkgInfow (msg : string) (keysAndValues : list Value)
  | OpCreateProductionLogger (dir : string) (jsonConsole : bool) (lvl : Level)
                             (toDisk : bool).

(** Running an operation on a facade value, results dropped. *)
Definition exec (log : logger) (op : Op) : M unit :=
  match op with
  | OpWithSpan span => logger_WithSpan log span
  | OpInfo args => logger_Info log args
  | OpInfow msg kvs => logger_Infow log msg kvs
  | OpInfof format values => logger_Infof log format values
  | OpDebug args => logger_Debug log args
  | OpDebugw msg kvs => logger_Debugw log msg kvs
  | OpDebugf format values => logger_Debugf log format values
  | OpWarn args => logger_Warn log args
  | OpWarnw msg kvs => logger_Warnw log msg kvs
  | OpWarnf format values => logger_Warnf log format values
  | OpWarnIf e => logger_WarnIf log e
  | OpError args => logger_Error log args
  | OpErrorw msg kvs => logger_Errorw log msg kvs
  | OpErrorf format values => logger_Errorf log format values
  | OpErrorIf e optionalMsg => logger_ErrorIf log e optionalMsg
  | OpErrorIfCalling f optionalMsg => logger_ErrorIfCalling log f optionalMsg
  | OpPanic args => logger_Panic log args
  | OpPanicf format values => logger_Panicf log format values
  | OpPanicIf e => logger_PanicIf log e
  | OpFatal args => logger_Fatal log args
  | OpFatalf format values => logger_Fatalf log format values
  | OpSync => _ <-- logger_Sync log ;; ret tt
  | OpWrite b => _ <-- logger_Write log b ;; ret tt
  | OpPkgInfow msg kvs => Infow msg kvs
  | OpCreateProductionLogger dir jsonConsole lvl toDisk =>
      _ <-- CreateProductionLogger dir jsonConsole lvl toDisk ;; ret tt
  end.

(** The callback an operation runs, if it runs one. *)
Definition callback_of (op : Op) : option Func :=
  match op with
  | OpErrorIfCalling f _ => Some f
  | _ => None
  end.

(** ** Specification vocabulary *)

(** The message of a record handed to the engine contains [needle]. *)
Definition contains (needle hay : string) : Prop :=
  exists pre post, hay = pre +:+ needle +:+ post.

(** What an emission at a level does to control: Panic panics with the
    message, Fatal ends the process, the other levels return. *)
Definition after_emit (lvl : Level) (msg : string) : Outcome unit :=
  match lvl with
  | PanicLevel => Panicked msg
  | FatalLevel => Exited 1
  | _ => Returned tt
  end.

(** [m] relates every starting state to its final state by [R], whatever
    the outcome. *)
Definition preserves {A} (R : World -> World -> Prop) (m : M A) : Prop :=
  forall w, R w (world_of (m w)).

(** No counter went down from [w] to [w']. *)
Definition bank_le (w w' : World) : Prop :=
  forall c : string, value_at c (counters w) <= value_at c (counters w').

(** The counter of [lv] shows the same value in [w] and [w']. *)
Definition keeps (lv : Level) (w w' : World) : Prop :=
  counter lv w' = counter lv w.

(** The whole bank is the same in [w] and [w']. *)
Definition same_bank (w w' : World) : Prop :=
  counters w' = counters w.

(** The record a call [s.log(lvl, template, fmtArgs, context)] hands to the
    engine. *)
Definition entry_of (s : SugaredLogger) (lvl : Level) (template : string)
    (fmtArgs context : list Value) : Entry :=
  mkEntry lvl (getMessage template fmtArgs)
          (s_context s ++ (sweeten_pairs context).1.1).

(** The emission methods of the facade and the level each one names. *)
Definition emission_level (op : Op) : option Level :=
  match op with
  | OpDebug _ | OpDebugw _ _ | OpDebugf _ _ => Some DebugLevel
  | OpInfo _ | OpInfow _ _ | OpInfof _ _ => Some InfoLevel
  | OpWarn _ | OpWarnw _ _ | OpWarnf _ _ => Some WarnLevel
  | OpError _ | OpErrorw _ _ | OpErrorf _ _ => Some ErrorLevel
  | OpPanic _ | OpPanicf _ _ => Some PanicLevel
  | OpFatal _ | OpFatalf _ _ => Some FatalLevel
  | _ => None
  end.

(** The emission methods whose increment follows a call that does not
    return. *)
Definition increment_after_terminal (op : Op) : bool :=
  match op with
  | OpPanic _ | OpPanicf _ _ | OpFatalf _ _ => true
  | _ => false
  end.

(** ** Startup ([init])

    [init] calls three functions defined outside [logger.go] before it
    builds the package logger: the engine's [RegisterSink], the platform's
    [registerOSSinks] and [os.Getenv].  They act on the engine's sink
    registry and on the environment of the process, which are not part of
    the state; a run of [init] takes what they return as its input. *)

Record Startup : Type := mkStartup {
  RegisterSink_pretty : error;   (* zap.RegisterSink("pretty", prettyConsoleSink(os.Stderr)) *)
  registerOSSinks : error;       (* registerOSSinks() *)
  LOG_LEVEL : string             (* os.Getenv("LOG_LEVEL") *)
}.

(** [bytes.ToLower], from the standard library. *)
Variable ToLower : string -> string.

(** The level names [zapcore.Level.unmarshalText] accepts as they are; the
    empty text reads as Info. *)
Definition unmarshalText (text : string) : option Level :=
  if bool_decide (text = "debug") || bool_decide (text = "DEBUG") then Some DebugLevel
  else if bool_decide (text = "info") || bool_decide (text = "INFO")
          || bool_decide (text = "") then Some InfoLevel
  else if bool_decide (text = "warn") || bool_decide (text = "WARN") then Some WarnLevel
  else if bool_decide (text = "error") || bool_decide (text = "ERROR") then Some ErrorLevel
  else if bool_decide (text = "dpanic") || bool_decide (text = "DPANIC") then Some DPanicLevel
  else if bool_decide (text = "panic") || bool_decide (text = "PANIC") then Some PanicLevel
  else if bool_decide (text = "fatal") || bool_decide (text = "FATAL") then Some FatalLevel
  else None.

(** [level.UnmarshalText(text)] on a level variable holding [level]: the
    text as it is, then in lower case; the variable is left alone when
    neither reads. *)
Definition Level_UnmarshalText (level : Level) (text : string) : Level * error :=
  match unmarshalText text with
  | Some lv => (lv, None)
  | None =>
      match unmarshalText (ToLower text) with
      | Some lv => (lv, None)
      | None => (level, Some (ErrNew (Sprintf "unrecognized level: %q" [VString text])))
      end
  end.

Definition set_pkg_l (g : option logger) (w : World) : World :=
  mkWorld (counters w) (attempts w) (delivered w) (sink_ok w) (flush_err w)
          (broken_sinks w) (stdlog w) g (vars w).

(** The standard library's [log.Fatalf]. *)
Definition log_Fatalf {A} (format : string) (values : list Value) : M A :=
  log_Fatal (Sprintf format values).

(** The package's [init]. *)
Definition init (env : Startup) : M unit :=
  match RegisterSink_pretty env with
  | Some e =>
      Inc fatalLineCounter ;;;
      log_Fatalf "failed to register pretty printer %+v" [VError e]
  | None => ret tt
  end ;;;
  match registerOSSinks env with
  | Some e =>
      Inc fatalLineCounter ;;;
      log_Fatalf "failed to register os specific sinks %+v" [VError e]
  | None => ret tt
  end ;;;
  let '(level, e) := Level_UnmarshalText InfoLevel (LOG_LEVEL env) in
  match e with
  | Some e' => Inc fatalLineCounter ;;; log_Fatal (Error e')
  | None => ret tt
  end ;;;
  let config := NewProductionConfig in
  let config :=
    mkConfig level (Encoding config) (OutputPaths config) (ErrorOutputPaths config) in
  r <-- Config_Build config 1 ;;
  match r with
  | inr e' => Inc fatalLineCounter ;;; log_Fatal (Error e')
  | inl zl => modify (set_pkg_l (Some (mklogger zl)))
  end.

(** A startup in which both registrations succeed and [LOG_LEVEL] is
    [warn]. *)
Definition sample_startup : Startup := mkStartup None None "warn".

(** A run of five calls at three levels. *)
Definition sample_calls : list Op :=
  [OpInfo [VString "starting"];
   OpDebugf "listening on %s" [VString ":8080"];
   OpInfow "request" [VString "path"; VString "/health"];
   OpWarn [VString "slow request"];
   OpInfo [VString "stopping"]].

(** ** Runs of several operations *)

#[global] Instance Level_eq_dec : EqDecision Level.
Proof. solve_decision. Defined.

(** The calls of a list, one after the other, on one facade value. *)
Fixpoint run_all (log : logger) (ops : list Op) : M unit :=
  match ops with
  | [] => ret tt
  | op :: rest => exec log op ;;; run_all log rest
  end.

(** How many calls of a list name the level [lv]. *)
Definition count_level (lv : Level) (ops : list Op) : nat :=
  length (List.filter (fun op => bool_decide (emission_level op = Some lv)) ops).

(** The emission methods of the levels below Panic. *)
Definition plain_emission (op : Op) : bool :=
  match emission_level op with
  | Some DebugLevel | Some InfoLevel | Some WarnLevel | Some ErrorLevel => true
  | _ => false
  end.

(** The operations that hand nothing to a callback and no record at Panic
    or Fatal level to the engine. *)
Definition always_returns (op : Op) : bool :=
  match op with
  | OpWithSpan _ | OpWarnIf _ | OpErrorIf _ _ | OpSync | OpWrite _ => true
  | _ => plain_emission op
  end.

(** Whether a run of [init] gets past its four checks. *)
Definition init_succeeds (env : Startup) (w : World) : bool :=
  match RegisterSink_pretty env, registerOSSinks env,
        (Level_UnmarshalText InfoLevel (LOG_LEVEL env)).2 with
  | None, None, None => forallb (opens w) ["stderr"; "stderr"]
  | _, _, _ => false
  end.

(** ** The monad: frame rules *)

Lemma preserves_ret {A} (R : World -> World -> Prop) `{!Reflexive R} (a : A) :
  preserves R (ret a).
Proof. intros w. reflexivity. Qed.

Lemma preserves_panic {A} (R : World -> World -> Prop) `{!Reflexive R} v :
  preserves R (@panic A v).
Proof. intros w. reflexivity. Qed.

Lemma preserves_os_Exit {A} (R : World -> World -> Prop) `{!Reflexive R} c :
  preserves R (@os_Exit A c).
Proof. intros w. reflexivity. Qed.

Lemma preserves_gets {A} (R : World -> World -> Prop) `{!Reflexive R} (f : World -> A) :
  preserves R (gets f).
Proof. intros w. reflexivity. Qed.

Lemma preserves_bind {A B} (R : World -> World -> Prop) `{!Transitive R}
    (m : M A) (k : A -> M B) :
  preserves R m -> (forall a, preserves R (k a)) -> preserves R (bind m k).
Proof.
  intros Hm Hk w. unfold bind. specialize (Hm w).
  destruct (m w) as [[a | v | c] w1]; simpl in *; trivial.
  transitivity w1; [exact Hm | apply Hk].
Qed.

Lemma preserves_modify (R : World -> World -> Prop) (f : World -> World) :
  (forall w, R w (f w)) -> preserves R (modify f).
Proof. intros H w. apply H. Qed.

Lemma preserves_weaken {A} (R R' : World -> World -> Prop) (m : M A) :
  (forall w w', R w w' -> R' w w') -> preserves R m -> preserves R' m.
Proof. intros H Hm w. apply H, Hm. Qed.

#[local] Instance same_bank_refl : Reflexive same_bank.
Proof. intros w. reflexivity. Qed.

#[local] Instance same_bank_trans : Transitive same_bank.
Proof. intros a b c H1 H2. unfold same_bank in *. congruence. Qed.

#[local] Instance bank_le_refl : Reflexive bank_le.
Proof. intros w c. reflexivity. Qed.

#[local] Instance bank_le_trans : Transitive bank_le.
Proof. intros a b c H1 H2 k. etransitivity; [apply H1 | apply H2]. Qed.

#[local] Instance keeps_refl lv : Reflexive (keeps lv).
Proof. intros w. reflexivity. Qed.

#[local] Instance keeps_trans lv : Transitive (keeps lv).
Proof. intros a b c H1 H2. unfold keeps in *. congruence. Qed.

Lemma same_bank_le w w' : same_bank w w' -> bank_le w w'.
Proof. intros H c. rewrite H. reflexivity. Qed.

Lemma same_bank_keeps lv w w' : same_bank w w' -> keeps lv w w'.
Proof. intros H. unfold keeps, counter. rewrite H. reflexivity. Qed.

(** ** The engine: what one emission does *)

Ltac split_pairs :=
  repeat match goal with
         | |- context [sweeten_pairs ?args] =>
             let fs := fresh "fs" in
             let dangling := fresh "dangling" in
             let invalid := fresh "invalid" in
             destruct (sweeten_pairs args) as [[fs dangling] invalid]
         end.

Ltac run_engine :=
  unfold Sugared_With, Sugared_log, sweetenFields, Sugared_Sync, core_write,
    log_Fatal, bind, modify, gets, ret, panic, os_Exit, outcome_of, world_of;
  split_pairs;
  repeat (simpl;
          match goal with
          | |- context [match ?x with _ => _ end] => is_var x; destruct x
          | |- context [Enabled ?a ?b] => destruct (Enabled a b)
          | |- context [sink_ok ?x] => is_var x; destruct (sink_ok x)
          end);
  simpl; auto.

(** An emission ends as its level says and adds exactly one record to the
    trace of attempts; it never touches the counter bank. *)
Lemma Sugared_log_spec s lvl template fmtArgs context w :
  let r := Sugared_log s lvl template fmtArgs context w in
  outcome_of r = after_emit lvl (getMessage template fmtArgs) /\
  counters (world_of r) = counters w /\
  attempts (world_of r) = attempts w ++ [entry_of s lvl template fmtArgs context] /\
  vars (world_of r) = vars w.
Proof.
  unfold entry_of. destruct lvl; run_engine.
Qed.

Lemma Sugared_log_same_bank s lvl template fmtArgs context :
  preserves same_bank (Sugared_log s lvl template fmtArgs context).
Proof. intros w. apply (Sugared_log_spec s lvl template fmtArgs context w). Qed.

Lemma Sugared_With_same_bank s args : preserves same_bank (Sugared_With s args).
Proof. intros w. unfold same_bank. run_engine. Qed.

Lemma Sugared_With_attempts s args w :
  attempts (world_of (Sugared_With s args w)) = attempts w.
Proof. run_engine. Qed.

Lemma Sugared_With_returns s args w :
  exists s', outcome_of (Sugared_With s args w) = Returned s' /\
             s_context s' = s_context s ++ (sweeten_pairs args).1.1.
Proof. run_engine; eexists; split; reflexivity. Qed.

Lemma Sugared_Sync_same_bank s : preserves same_bank (Sugared_Sync s).
Proof. intros w. reflexivity. Qed.

Lemma Config_Build_same_bank config skip : preserves same_bank (Config_Build config skip).
Proof. intros w. unfold Config_Build, same_bank. case_match; reflexivity. Qed.

(** ** The counter bank *)

Lemma value_at_insert c c' n (vec : gmap string nat) :
  value_at c' (<[c := n]> vec) = if decide (c = c') then n else value_at c' vec.
Proof.
  unfold value_at. rewrite lookup_insert. case_decide; reflexivity.
Qed.

Lemma Inc_spec c w :
  Inc c w = (Returned tt, set_counters (fun vec => <[c := S (value_at c vec)]> vec) w).
Proof. reflexivity. Qed.

Lemma Inc_bank_le c : preserves bank_le (Inc c).
Proof.
  intros w c'. simpl. rewrite value_at_insert. case_decide; subst; lia.
Qed.

Lemma Inc_keeps c lv : c <> Level_String lv -> preserves (keeps lv) (Inc c).
Proof.
  intros Hne w. unfold keeps, counter. simpl. rewrite value_at_insert.
  case_decide; [contradiction | reflexivity].
Qed.

(** Emit, then count: the shape of most facade methods. *)
Lemma emit_then_Inc s lvl template fmtArgs context c w :
  let r := (Sugared_log s lvl template fmtArgs context ;;; Inc c) w in
  attempts (world_of r) = attempts w ++ [entry_of s lvl template fmtArgs context] /\
  vars (world_of r) = vars w /\
  match lvl with
  | PanicLevel | FatalLevel =>
      outcome_of r = after_emit lvl (getMessage template fmtArgs) /\
      counters (world_of r) = counters w
  | _ =>
      outcome_of r = Returned tt /\
      counters (world_of r) = <[c := S (value_at c (counters w))]> (counters w)
  end.
Proof.
  destruct (Sugared_log_spec s lvl template fmtArgs context w) as (Ho & Hc & Ha & Hv).
  unfold bind, outcome_of, world_of in *.
  destruct (Sugared_log s lvl template fmtArgs context w) as [o w1]; simpl in *.
  subst o. destruct lvl; simpl; rewrite ?Hc; auto.
Qed.

(** ** A frame rule for every exported operation

    Whatever relation [R] between the state before and after is reflexive
    and transitive, holds when the bank is untouched, and is kept by the
    increments of the six counters the facade uses, is kept by every
    operation whose callback keeps it. *)

Section Frame.

Variable R : World -> World -> Prop.
Context `{!Reflexive R, !Transitive R}.
Hypothesis R_same_bank : forall w w', same_bank w w' -> R w w'.
Hypothesis R_Inc : forall lv, lv <> DPanicLevel -> preserves R (Inc (Level_String lv)).

Lemma frame_same_bank {A} (m : M A) : preserves same_bank m -> preserves R m.
Proof. apply preserves_weaken, R_same_bank. Qed.

Lemma frame_emit s lvl template fmtArgs context :
  preserves R (Sugared_log s lvl template fmtArgs context).
Proof. apply frame_same_bank, Sugared_log_same_bank. Qed.

Lemma frame_emit_Inc s lvl template fmtArgs context lv :
  lv <> DPanicLevel ->
  preserves R (Sugared_log s lvl template fmtArgs context ;;; Inc (Level_String lv)).
Proof.
  intros Hlv. apply (preserves_bind R); [apply frame_emit | intros _; apply R_Inc, Hlv].
Qed.

Lemma frame_exec log op :
  (forall f, callback_of op = Some f -> preserves R (fn_call f)) ->
  preserves R (exec log op).
Proof.
  intros Hf.
  destruct op as [span | | | | | | | | | | e | | | | e msgs | f msgs | | | e | | | | |
                  | dir jsonConsole lvl toDisk]; simpl;
    try (apply frame_emit_Inc; discriminate).
  - (* WithSpan *)
    destruct span; simpl; [| apply (preserves_ret R)].
    apply (preserves_bind R); [| intros ?; apply (preserves_ret R)].
    apply frame_same_bank, Sugared_With_same_bank.
  - (* WarnIf *)
    destruct e; simpl; [| apply (preserves_ret R)].
    apply (frame_emit_Inc _ _ _ _ _ WarnLevel); discriminate.
  - (* ErrorIf *)
    destruct e; simpl; [| apply (preserves_ret R)].
    destruct msgs; apply (frame_emit_Inc _ _ _ _ _ ErrorLevel); discriminate.
  - (* ErrorIfCalling *)
    apply (preserves_bind R); [apply Hf; reflexivity |].
    intros [e |]; [| apply (preserves_ret R)].
    destruct msgs; apply (frame_emit_Inc _ _ _ _ _ ErrorLevel); discriminate.
  - (* PanicIf *)
    destruct e; simpl; [apply frame_emit | apply (preserves_ret R)].
  - (* Fatal *)
    apply (preserves_bind R); [apply (R_Inc FatalLevel); discriminate |].
    intros _. apply frame_emit.
  - (* Sync *)
    apply (preserves_bind R); [| intros ?; apply (preserves_ret R)].
    apply frame_same_bank, Sugared_Sync_same_bank.
  - (* Write *)
    apply (preserves_bind R); [| intros ?; apply (preserves_ret R)].
    apply (preserves_bind R); [apply frame_emit | intros _; apply (preserves_ret R)].
  - (* the package-level Infow *)
    apply (preserves_bind R); [apply (preserves_gets R) |].
    intros g. apply (preserves_bind R); [| intros _; apply (R_Inc InfoLevel); discriminate].
    destruct g; [| apply (preserves_panic R)].
    apply (frame_emit_Inc _ _ _ _ _ InfoLevel); discriminate.
  - (* CreateProductionLogger *)
    apply (preserves_bind R); [| intros ?; apply (preserves_ret R)].
    apply (preserves_bind R); [apply frame_same_bank, Config_Build_same_bank |].
    intros [zl | e]; [apply (preserves_ret R) |].
    apply (preserves_bind R); [apply (R_Inc FatalLevel); discriminate |].
    intros _. apply frame_same_bank. intros w. reflexivity.
Qed.

End Frame.

(** ** Messages *)

Lemma append_empty_r (s : string) : s +:+ "" = s.
Proof.
  induction s as [| a s IH]; [reflexivity |].
  change (String a s +:+ "") with (String a (s +:+ "")). now rewrite IH.
Qed.

(** A single operand is printed by [Sprint] in its default format. *)
Lemma getMessage_single (v : Value) : getMessage "" [v] = format_v v.
Proof. unfold getMessage. simpl. apply append_empty_r. Qed.

Lemma contains_intro (pre needle post : string) :
  contains needle (pre +:+ needle +:+ post).
Proof. exists pre, post. reflexivity. Qed.

(** The record of a call with one operand and no key-value pairs. *)
Lemma entry_of_single s lvl (v : Value) :
  entry_of s lvl "" [v] [] = mkEntry lvl (format_v v) (s_context s).
Proof.
  unfold entry_of. rewrite getMessage_single. simpl. now rewrite app_nil_r.
Qed.

(** ** The emission methods and their counters *)

(** Every emission method except Panic, Panicf and Fatalf adds one to the
    counter of its level and leaves the rest of the bank as it was. *)
Lemma exec_emission_counts log op lv w :
  emission_level op = Some lv ->
  increment_after_terminal op = false ->
  counters (world_of (exec log op w))
  = <[Level_String lv := S (counter lv w)]> (counters w).
Proof.
  intros Hlv Hterm.
  destruct op; simpl in Hlv, Hterm; try discriminate; injection Hlv as <-;
    try (match goal with
         | |- _ = <[Level_String ?lv := _]> _ =>
             first
               [ exact (proj2 (proj2 (proj2
                   (emit_then_Inc (l log) lv "" _ [] (Level_String lv) w))))
               | exact (proj2 (proj2 (proj2
                   (emit_then_Inc (l log) lv _ [] _ (Level_String lv) w)))) ]
         end).
  (* Fatal: the increment comes first *)
  unfold exec, logger_Fatal, bind. rewrite Inc_spec.
  match goal with
  | |- context [Sugared_Fatal ?s ?a ?w'] =>
      destruct (Sugared_log_spec s FatalLevel "" a [] w') as (_ & Hc & _)
  end.
  unfold Sugared_Fatal.
  destruct (Sugared_log _ _ _ _ _ _) as [[[] | v | c] w1]; simpl in *; exact Hc.
Qed.

(** Panic, Panicf and Fatalf hand their record to the engine, which does not
    return: the increment written after the call is never run. *)
Lemma exec_terminal_skips_Inc log op lv w :
  emission_level op = Some lv ->
  increment_after_terminal op = true ->
  counters (world_of (exec log op w)) = counters w /\
  returns (outcome_of (exec log op w)) = false.
Proof.
  intros Hlv Hterm.
  destruct op; simpl in Hlv, Hterm; try discriminate; injection Hlv as <-.
  - destruct (emit_then_Inc (l log) PanicLevel "" args [] panicLineCounter w)
      as (_ & _ & Ho & Hc).
    split; [exact Hc |]. unfold exec, logger_Panic, Sugared_Panic. now rewrite Ho.
  - destruct (emit_then_Inc (l log) PanicLevel "" [VString (Sprintf format values)] []
                panicLineCounter w) as (_ & _ & Ho & Hc).
    split; [exact Hc |]. unfold exec, logger_Panicf, Sugared_Panic. now rewrite Ho.
  - destruct (emit_then_Inc (l log) FatalLevel "" [VString (Sprintf format values)] []
                fatalLineCounter w) as (_ & _ & Ho & Hc).
    split; [exact Hc |]. unfold exec, logger_Fatalf, Sugared_Fatal. now rewrite Ho.
Qed.

Lemma append_assoc (a b c : string) : (a +:+ b) +:+ c = a +:+ (b +:+ c).
Proof.
  induction a as [| x a IH]; [reflexivity |].
  change (String x ((a +:+ b) +:+ c) = String x (a +:+ (b +:+ c))).
  now rewrite IH.
Qed.

(** ** The conditional helpers *)

(** C4: [WarnIf(nil)] and [ErrorIf(nil)] leave the state as it is: no record
    is handed to the engine and no counter moves.  With a non-nil error,
    [WarnIf] hands exactly one record to the engine, at Warn level, and adds
    one to the warn counter only; [ErrorIf] hands exactly one record to the
    engine, at Error level, and adds one to the error counter only; the error
    it logs is wrapped with [optionalMsg[0]] when an optional message is
    given. *)
Theorem WarnIf_ErrorIf_emit_once log w :
  logger_WarnIf log None w = (Returned tt, w) /\
  (forall optionalMsg, logger_ErrorIf log None optionalMsg w = (Returned tt, w)) /\
  (forall e,
     let r := logger_WarnIf log (Some e) w in
     outcome_of r = Returned tt /\
     attempts (world_of r)
       = attempts w ++ [mkEntry WarnLevel (Error e) (s_context (l log))] /\
     counters (world_of r)
       = <[warnLineCounter := S (counter WarnLevel w)]> (counters w)) /\
  (forall e optionalMsg,
     let r := logger_ErrorIf log (Some e) optionalMsg w in
     let logged :=
       match optionalMsg with
       | msg0 :: _ => ErrWrap e msg0
       | [] => e
       end in
     outcome_of r = Returned tt /\
     attempts (world_of r)
       = attempts w ++ [mkEntry ErrorLevel (Error logged) (s_context (l log))] /\
     counters (world_of r)
       = <[errorLineCounter := S (counter ErrorLevel w)]> (counters w)).
Proof.
  split; [reflexivity |]. split; [reflexivity |]. split.
  - intros e r.
    destruct (emit_then_Inc (l log) WarnLevel "" [VError e] [] warnLineCounter w)
      as (Ha & _ & Ho & Hc).
    rewrite entry_of_single in Ha. repeat split; assumption.
  - intros e optionalMsg r logged. subst r logged.
    destruct optionalMsg as [| msg0 rest].
    + destruct (emit_then_Inc (l log) ErrorLevel "" [VError e] [] errorLineCounter w)
        as (Ha & _ & Ho & Hc).
      rewrite entry_of_single in Ha. repeat split; assumption.
    + destruct (emit_then_Inc (l log) ErrorLevel "" [VError (ErrWrap e msg0)] []
                  errorLineCounter w) as (Ha & _ & Ho & Hc).
      rewrite entry_of_single in Ha. repeat split; assumption.
Qed.

(** [ErrorIfCalling] starts with the call of [f]. *)
Lemma ErrorIfCalling_unfold log f optionalMsg w :
  logger_ErrorIfCalling log f optionalMsg w =
  match fn_call f w with
  | (Returned (Some e0), w1) =>
      (match optionalMsg with
       | msg0 :: _ =>
           Sugared_Error (l log) [VError (ErrWrap (ErrWrap e0 (fn_name f)) msg0)]
       | [] => Sugared_Error (l log) [VError (ErrWrap e0 (fn_name f))]
       end ;;; Inc errorLineCounter) w1
  | (Returned None, w1) => (Returned tt, w1)
  | (Panicked v, w1) => (Panicked v, w1)
  | (Exited c, w1) => (Exited c, w1)
  end.
Proof.
  unfold logger_ErrorIfCalling, bind at 1.
  destruct (fn_call f w) as [[[e0 |] | v | c] w1]; try reflexivity.
Qed.

(** C5: [ErrorIfCalling(f, optionalMsg...)] calls [f].  When the call
    returns nil the operation ends in the state the call left: no record, no
    increment.  When it returns a non-nil error, that error is wrapped with
    the name of [f], then with [optionalMsg[0]] if there is one, and handed
    to the engine at Error level as one record, whose message contains the
    name of [f]; the error counter goes up by one. *)
Theorem ErrorIfCalling_logs_named_error log f optionalMsg w e w1 :
  fn_call f w = (Returned e, w1) ->
  let r := logger_ErrorIfCalling log f optionalMsg w in
  match e with
  | None => r = (Returned tt, w1)
  | Some e0 =>
      let named := ErrWrap e0 (fn_name f) in
      let logged :=
        match optionalMsg with
        | msg0 :: _ => ErrWrap named msg0
        | [] => named
        end in
      outcome_of r = Returned tt /\
      attempts (world_of r)
        = attempts w1 ++ [mkEntry ErrorLevel (Error logged) (s_context (l log))] /\
      contains (fn_name f) (Error logged) /\
      counters (world_of r)
        = <[errorLineCounter := S (counter ErrorLevel w1)]> (counters w1)
  end.
Proof.
  intros Hf r. subst r. rewrite ErrorIfCalling_unfold, Hf.
  destruct e as [e0 |]; [| reflexivity].
  intros named logged. subst named logged.
  destruct optionalMsg as [| msg0 rest].
  - destruct (emit_then_Inc (l log) ErrorLevel "" [VError (ErrWrap e0 (fn_name f))] []
                errorLineCounter w1) as (Ha & _ & Ho & Hc).
    rewrite entry_of_single in Ha. repeat split; try assumption.
    apply (contains_intro "" (fn_name f) (": " +:+ Error e0)).
  - destruct (emit_then_Inc (l log) ErrorLevel ""
                [VError (ErrWrap (ErrWrap e0 (fn_name f)) msg0)] []
                errorLineCounter w1) as (Ha & _ & Ho & Hc).
    rewrite entry_of_single in Ha. repeat split; try assumption.
    exists (msg0 +:+ ": "), (": " +:+ Error e0).
    simpl. now rewrite append_assoc.
Qed.

(** C9: [ErrorIfCalling] runs [f] once, from the state it was called in and
    before it looks at the result.  If the call does not return, its outcome
    and state are those of the operation; if it returns nil, the operation
    returns in exactly the state the call left, so the effects of [f] are
    there although nothing is logged; if it returns an error, the caller's
    state is the one a single call left and the operation only adds its
    record on top. *)
Theorem ErrorIfCalling_runs_f_once log f optionalMsg w :
  let r := logger_ErrorIfCalling log f optionalMsg w in
  vars (world_of r) = vars (world_of (fn_call f w)) /\
  match fn_call f w with
  | (Returned None, w1) => r = (Returned tt, w1)
  | (Returned (Some e), w1) =>
      outcome_of r = Returned tt /\
      exists entry, attempts (world_of r) = attempts w1 ++ [entry]
  | (Panicked v, w1) => r = (Panicked v, w1)
  | (Exited c, w1) => r = (Exited c, w1)
  end.
Proof.
  intros r. subst r. rewrite ErrorIfCalling_unfold.
  destruct (fn_call f w) as [[[e |] | v | c] w1]; simpl; try (split; reflexivity).
  destruct optionalMsg as [| msg0 rest].
  - destruct (emit_then_Inc (l log) ErrorLevel "" [VError (ErrWrap e (fn_name f))] []
                errorLineCounter w1) as (Ha & Hv & Ho & _).
    split; [exact Hv |]. split; [exact Ho |]. eexists. exact Ha.
  - destruct (emit_then_Inc (l log) ErrorLevel ""
                [VError (ErrWrap (ErrWrap e (fn_name f)) msg0)] []
                errorLineCounter w1) as (Ha & Hv & Ho & _).
    split; [exact Hv |]. split; [exact Ho |]. eexists. exact Ha.
Qed.

(** ** Write *)

(** C8: [Write(b)] returns [(len(b), nil)] for every byte slice [b]: it
    never panics, exits or returns an error.  It hands the bytes, as a
    string, to the engine as one record at Info level, and it leaves the
    whole counter bank as it was. *)
Theorem Write_returns_length log b w :
  let r := logger_Write log b w in
  outcome_of r = Returned (Z.of_nat (length b), None) /\
  attempts (world_of r)
    = attempts w ++ [mkEntry InfoLevel (string_of_bytes b) (s_context (l log))] /\
  counters (world_of r) = counters w.
Proof.
  intros r. subst r. unfold logger_Write, Sugared_Info, bind.
  destruct (Sugared_log_spec (l log) InfoLevel "" [VString (string_of_bytes b)] [] w)
    as (Ho & Hc & Ha & _).
  rewrite entry_of_single in Ha.
  destruct (Sugared_log _ _ _ _ _ w) as [o w1]; simpl in *. subst o. simpl.
  repeat split; assumption.
Qed.

(** ** CreateProductionLogger *)

(** C6: the configuration [CreateProductionLogger(dir, jsonConsole, lvl,
    toDisk)] builds its logger from has the console destination
    [pretty://console] exactly when [jsonConsole] is false (the default
    [stderr] otherwise), has the destination derived from [dir] appended to
    both the output paths and the error output paths exactly when [toDisk] is
    true, and has [lvl] as its level.  The logger it returns writes to these
    destinations at this level; the only other way the call ends is the fatal
    exit taken when a destination cannot be opened. *)
Theorem CreateProductionLogger_config dir jsonConsole lvl toDisk :
  let config := productionConfig dir jsonConsole lvl toDisk in
  let console := if jsonConsole then "stderr" else "pretty://console" in
  let disk := if toDisk then [logFileURI dir] else [] in
  OutputPaths config = console :: disk /\
  ErrorOutputPaths config = "stderr" :: disk /\
  Level_ config = lvl /\
  (head (OutputPaths config) = Some "pretty://console" <-> jsonConsole = false) /\
  (length (OutputPaths config) = 2 <-> toDisk = true) /\
  (length (ErrorOutputPaths config) = 2 <-> toDisk = true) /\
  forall w,
    match CreateProductionLogger dir jsonConsole lvl toDisk w with
    | (Returned zl, w') =>
        w' = w /\
        s_outputs zl = OutputPaths config /\
        s_errOutputs zl = ErrorOutputPaths config /\
        s_level zl = lvl
    | (Exited c, _) =>
        c = 1%Z /\
        forallb (opens w) (OutputPaths config ++ ErrorOutputPaths config) = false
    | (Panicked _, _) => False
    end.
Proof.
  intros config console disk. subst config console disk.
  repeat split; try (destruct jsonConsole, toDisk; simpl; congruence).
  intros w. unfold CreateProductionLogger, Config_Build, bind at 1.
  destruct (forallb _ _) eqn:Hopen; simpl; auto.
Qed.

(** ** PanicIf and WithSpan *)

(** [PanicIf] with a non-nil error hands the error to the engine at Panic
    level and panics with its message; no counter moves. *)
Lemma PanicIf_spec log e w :
  let r := logger_PanicIf log (Some e) w in
  outcome_of r = Panicked (Error e) /\
  attempts (world_of r)
    = attempts w ++ [mkEntry PanicLevel (Error e) (s_context (l log))] /\
  counters (world_of r) = counters w.
Proof.
  intros r. subst r. unfold logger_PanicIf, Sugared_Panic.
  destruct (Sugared_log_spec (l log) PanicLevel "" [VError e] [] w)
    as (Ho & Hc & Ha & _).
  rewrite entry_of_single in Ha. rewrite getMessage_single in Ho.
  repeat split; assumption.
Qed.

Lemma PanicIf_nil log w : logger_PanicIf log None w = (Returned tt, w).
Proof. reflexivity. Qed.

(** [WithSpan] returns nothing and changes nothing, with or without a
    span: the handle that carries the trace identifier is dropped. *)
Lemma WithSpan_noop log span w : logger_WithSpan log span w = (Returned tt, w).
Proof. destruct span; reflexivity. Qed.

(** ** The counter bank under the operations *)

(** C7: no exported operation resets or decrements a counter: under every
    operation, each counter of the bank ends at least as high as it started,
    provided the callback the operation runs, if any, does not lower one
    either. *)
Theorem counters_never_decrease log op w :
  (forall f, callback_of op = Some f -> preserves bank_le (fn_call f)) ->
  bank_le w (world_of (exec log op w)).
Proof.
  intros Hf. apply (frame_exec bank_le); trivial.
  - apply same_bank_le.
  - intros lv _. apply Inc_bank_le.
Qed.

(** C10: the DPanic counter is created with the other per-level counters
    when the bank is initialised, and under every exported operation it keeps
    its value, provided the callback the operation runs, if any, keeps it. *)
Theorem dPanic_counter_never_incremented log op w :
  (forall f, callback_of op = Some f -> preserves (keeps DPanicLevel) (fn_call f)) ->
  (forall lv, In lv all_levels -> lineCounter !! Level_String lv = Some 0) /\
  counter DPanicLevel (world_of (exec log op w)) = counter DPanicLevel w.
Proof.
  intros Hf. split.
  - intros lv Hin. simpl in Hin.
    repeat (destruct Hin as [<- | Hin]; [reflexivity |]). contradiction.
  - apply (frame_exec (keeps DPanicLevel)); trivial.
    + apply same_bank_keeps.
    + intros lv Hlv. apply Inc_keeps. destruct lv; try discriminate. contradiction.
Qed.

(** ** Further properties of the emission methods *)

(** Distinct levels have distinct labels, so the handles of the bank are
    distinct counters. *)
Lemma Level_String_inj lv lv' : Level_String lv = Level_String lv' -> lv = lv'.
Proof. destruct lv, lv'; simpl; intros H; try reflexivity; discriminate H. Qed.

Lemma counter_after_insert lv lv' n (w w' : World) :
  counters w' = <[Level_String lv := n]> (counters w) ->
  counter lv' w' = if decide (lv = lv') then n else counter lv' w.
Proof.
  intros H. unfold counter. rewrite H, value_at_insert.
  destruct (decide (lv = lv')) as [-> | Hne].
  - now rewrite decide_True.
  - rewrite decide_False; [reflexivity |]. intros E. apply Hne, Level_String_inj, E.
Qed.

(** Every emission method hands exactly one record to the engine, at the
    level it names. *)
Lemma exec_emission_attempts log op lv w :
  emission_level op = Some lv ->
  exists e, attempts (world_of (exec log op w)) = attempts w ++ [e] /\ e_level e = lv.
Proof.
  intros Hlv.
  destruct op; simpl in Hlv; try discriminate; injection Hlv as <-;
    try (match goal with
         | |- exists e, _ /\ e_level e = ?lv =>
             eexists; split;
             [ first
                 [ exact (proj1 (emit_then_Inc (l log) lv "" _ [] (Level_String lv) w))
                 | exact (proj1 (emit_then_Inc (l log) lv _ [] _ (Level_String lv) w)) ]
             | reflexivity ]
         end).
  (* Fatal: the increment comes first *)
  unfold exec, logger_Fatal, bind. rewrite Inc_spec.
  match goal with
  | |- context [Sugared_Fatal ?s ?a ?w'] =>
      destruct (Sugared_log_spec s FatalLevel "" a [] w') as (_ & _ & Ha & _)
  end.
  eexists. split; [exact Ha | reflexivity].
Qed.

(** X1: each of the twelve Debug, Info, Warn and Error methods, and Fatal,
    adds exactly one to the counter of its level, leaves the counter of every
    other level as it was, and hands exactly one record to the engine, at
    that level; this holds for every active level of the logger and whether
    or not the sinks accept writes. *)
Theorem emission_methods_count_once log op lv w :
  emission_level op = Some lv ->
  increment_after_terminal op = false ->
  let w' := world_of (exec log op w) in
  counter lv w' = S (counter lv w) /\
  (forall lv', lv' <> lv -> counter lv' w' = counter lv' w) /\
  exists e, attempts w' = attempts w ++ [e] /\ e_level e = lv.
Proof.
  intros Hlv Hterm w'. subst w'.
  pose proof (exec_emission_counts log op lv w Hlv Hterm) as Hc.
  split; [| split].
  - rewrite (counter_after_insert lv lv _ w _ Hc). now rewrite decide_True.
  - intros lv' Hne. rewrite (counter_after_insert lv lv' _ w _ Hc).
    rewrite decide_False; [reflexivity | congruence].
  - apply exec_emission_attempts, Hlv.
Qed.

(** X3: the Panic methods always panic and the Fatal methods always end the
    process with status 1, whatever the active level of the logger and the
    state of the sinks: [Panic] panics with its arguments printed, [Panicf]
    with the formatted message, [PanicIf] of a non-nil error with the text of
    the error. *)
Theorem panic_and_fatal_methods_never_return log w :
  (forall args, outcome_of (logger_Panic log args w) = Panicked (getMessage "" args)) /\
  (forall format values,
     outcome_of (logger_Panicf log format values w) = Panicked (Sprintf format values)) /\
  (forall e, outcome_of (logger_PanicIf log (Some e) w) = Panicked (Error e)) /\
  (forall args, outcome_of (logger_Fatal log args w) = Exited 1) /\
  (forall format values, outcome_of (logger_Fatalf log format values w) = Exited 1).
Proof.
  split; [| split; [| split; [| split]]].
  - intros args.
    apply (emit_then_Inc (l log) PanicLevel "" args [] panicLineCounter w).
  - intros format values.
    destruct (emit_then_Inc (l log) PanicLevel "" [VString (Sprintf format values)] []
                panicLineCounter w) as (_ & _ & Ho & _).
    rewrite getMessage_single in Ho. exact Ho.
  - intros e. apply PanicIf_spec.
  - intros args. unfold logger_Fatal, bind. rewrite Inc_spec.
    match goal with
    | |- context [Sugared_Fatal ?s ?a ?w'] =>
        apply (Sugared_log_spec s FatalLevel "" a [] w')
    end.
  - intros format values.
    apply (emit_then_Inc (l log) FatalLevel "" [VString (Sprintf format values)] []
             fatalLineCounter w).
Qed.

Lemma exec_always_returns log op w :
  always_returns op = true ->
  outcome_of (exec log op w) = Returned tt.
Proof.
  intros H.
  destruct op as [span | | | | | | | | | | e | | | | e msgs | | | | | | | | b | |];
    simpl in H; try discriminate;
    try (match goal with
         | |- outcome_of (exec _ ?op _) = _ =>
             first
               [ exact (proj1 (proj2 (proj2
                   (emit_then_Inc (l log) DebugLevel "" _ [] debugLineCounter w))))
               | exact (proj1 (proj2 (proj2
                   (emit_then_Inc (l log) DebugLevel _ [] _ debugLineCounter w))))
               | exact (proj1 (proj2 (proj2
                   (emit_then_Inc (l log) InfoLevel "" _ [] infoLineCounter w))))
               | exact (proj1 (proj2 (proj2
                   (emit_then_Inc (l log) InfoLevel _ [] _ infoLineCounter w))))
               | exact (proj1 (proj2 (proj2
                   (emit_then_Inc (l log) WarnLevel "" _ [] warnLineCounter w))))
               | exact (proj1 (proj2 (proj2
                   (emit_then_Inc (l log) WarnLevel _ [] _ warnLineCounter w))))
               | exact (proj1 (proj2 (proj2
                   (emit_then_Inc (l log) ErrorLevel "" _ [] errorLineCounter w))))
               | exact (proj1 (proj2 (proj2
                   (emit_then_Inc (l log) ErrorLevel _ [] _ errorLineCounter w)))) ]
         end).
  - (* WithSpan *) simpl. now rewrite WithSpan_noop.
  - (* WarnIf *)
    destruct e as [e |]; [| reflexivity].
    apply (emit_then_Inc (l log) WarnLevel "" [VError e] [] warnLineCounter w).
  - (* ErrorIf *)
    destruct e as [e |]; [| reflexivity].
    destruct msgs as [| msg0 rest].
    + apply (emit_then_Inc (l log) ErrorLevel "" [VError e] [] errorLineCounter w).
    + apply (emit_then_Inc (l log) ErrorLevel "" [VError (ErrWrap e msg0)] []
               errorLineCounter w).
  - (* Sync *) reflexivity.
  - (* Write *)
    simpl. unfold logger_Write, Sugared_Info, bind.
    destruct (Sugared_log_spec (l log) InfoLevel "" [VString (string_of_bytes b)] [] w)
      as (Ho & _).
    destruct (Sugared_log _ _ _ _ _ w) as [o w1]; simpl in *. now subst o.
Qed.


(** A record below the active level, or written while the sinks fail, does
    not reach the sinks. *)
Lemma Sugared_log_delivers_nothing s lvl template fmtArgs context w :
  (Enabled (s_level s) lvl = false /\ (Level_int lvl < Level_int DPanicLevel)%Z)
  \/ sink_ok w = false ->
  delivered (world_of (Sugared_log s lvl template fmtArgs context w)) = delivered w.
Proof.
  intros H.
  unfold Sugared_log, sweetenFields, core_write, bind, modify, ret, panic, os_Exit,
    world_of.
  split_pairs.
  destruct H as [[Hen Hlt] | Hs].
  - apply Z.ltb_lt in Hlt. rewrite Hlt, Hen. reflexivity.
  - destruct ((Level_int lvl <? Level_int DPanicLevel)%Z
              && negb (Enabled (s_level s) lvl)); [reflexivity |].
    destruct dangling, invalid; simpl; rewrite ?Hs, ?andb_false_r; simpl;
      rewrite ?Hs, ?andb_false_r; simpl; rewrite ?Hs, ?andb_false_r;
      destruct lvl; reflexivity.
Qed.

Lemma emit_then_Inc_delivered s lvl template fmtArgs context c w :
  delivered (world_of ((Sugared_log s lvl template fmtArgs context ;;; Inc c) w))
  = delivered (world_of (Sugared_log s lvl template fmtArgs context w)).
Proof.
  unfold bind, world_of.
  destruct (Sugared_log s lvl template fmtArgs context w) as [[[] | v | code] w1];
    reflexivity.
Qed.

Lemma plain_emission_level op lv :
  plain_emission op = true -> emission_level op = Some lv ->
  increment_after_terminal op = false /\ (Level_int lv < Level_int DPanicLevel)%Z.
Proof.
  unfold plain_emission. intros Hp Hlv. rewrite Hlv in Hp.
  destruct op; simpl in Hlv; try discriminate; injection Hlv as <-;
    try discriminate; split; reflexivity.
Qed.

(** X5: the counters count calls, not deliveries.  When a Debug, Info, Warn
    or Error method is called on a logger whose active level is above the
    level of the method, or while the sinks reject writes, nothing reaches
    the sinks and the counter of the level still goes up by one. *)
Theorem undelivered_emissions_still_count log op lv w :
  plain_emission op = true ->
  emission_level op = Some lv ->
  Enabled (s_level (l log)) lv = false \/ sink_ok w = false ->
  let w' := world_of (exec log op w) in
  delivered w' = delivered w /\ counter lv w' = S (counter lv w).
Proof.
  intros Hp Hlv Hwhy w'. subst w'.
  destruct (plain_emission_level op lv Hp Hlv) as [Hterm Hlt].
  split.
  - assert (Hnone : forall template fmtArgs context,
               delivered (world_of (Sugared_log (l log) lv template fmtArgs context w))
               = delivered w).
    { intros. apply Sugared_log_delivers_nothing.
      destruct Hwhy as [Hen | Hs]; [left; split; assumption | right; exact Hs]. }
    destruct op; simpl in Hlv; try discriminate; injection Hlv as <-;
      try discriminate Hp;
      unfold exec, logger_Info, logger_Infow, logger_Infof, logger_Debug, logger_Debugw,
        logger_Debugf, logger_Warn, logger_Warnw, logger_Warnf, logger_Error,
        logger_Errorw, logger_Errorf, Sugared_Debug, Sugared_Info, Sugared_Warn,
        Sugared_Error, Sugared_Debugw, Sugared_Infow, Sugared_Warnw, Sugared_Errorw;
      rewrite emit_then_Inc_delivered; apply Hnone.
  - pose proof (exec_emission_counts log op lv w Hlv Hterm) as Hc.
    rewrite (counter_after_insert lv lv _ w _ Hc). now rewrite decide_True.
Qed.

(** ** The package-level Infow *)

Lemma Infow_unfold msg keysAndValues w :
  Infow msg keysAndValues w =
  match pkg_l w with
  | Some lg => (logger_Infow lg msg keysAndValues ;;; Inc infoLineCounter) w
  | None =>
      (Panicked "runtime error: invalid memory address or nil pointer dereference", w)
  end.
Proof. unfold Infow, gets, bind at 1. simpl. destruct (pkg_l w); reflexivity. Qed.

(** With a package logger in place, the package-level [Infow] returns after
    one record and two increments of the info counter. *)
Lemma Infow_with_logger msg keysAndValues w lg :
  pkg_l w = Some lg ->
  exists w',
    Infow msg keysAndValues w = (Returned tt, w') /\
    attempts w' = attempts w ++ [entry_of (l lg) InfoLevel msg [] keysAndValues] /\
    counters w'
      = <[Level_String InfoLevel := S (S (counter InfoLevel w))]> (counters w).
Proof.
  intros Hl. rewrite Infow_unfold, Hl.
  destruct (emit_then_Inc (l lg) InfoLevel msg [] keysAndValues infoLineCounter w)
    as (Ha & _ & Ho & Hc).
  destruct ((Sugared_log (l lg) InfoLevel msg [] keysAndValues ;;; Inc infoLineCounter) w)
    as [o w1] eqn:E.
  unfold outcome_of, world_of in *. simpl in *. subst o.
  exists (set_counters
            (fun vec => <[infoLineCounter := S (value_at infoLineCounter vec)]> vec) w1).
  split; [| split].
  - unfold logger_Infow, Sugared_Infow. unfold bind at 1. now rewrite E.
  - exact Ha.
  - simpl. rewrite Hc. unfold counter, infoLineCounter.
    rewrite value_at_insert, decide_True by reflexivity.
    now rewrite insert_insert_eq.
Qed.

(** X2: the package-level [Infow] calls the method [Infow] of the package
    logger, which counts the line, and then counts it again: one record
    reaches the engine and the info counter goes up by two, the other
    counters staying as they were.  While the package variable is nil the
    call panics on the nil pointer before anything is logged or counted. *)
Theorem package_Infow_counts_twice msg keysAndValues w :
  let r := Infow msg keysAndValues w in
  match pkg_l w with
  | Some lg =>
      outcome_of r = Returned tt /\
      attempts (world_of r)
        = attempts w ++ [entry_of (l lg) InfoLevel msg [] keysAndValues] /\
      counter InfoLevel (world_of r) = S (S (counter InfoLevel w)) /\
      forall lv, lv <> InfoLevel -> counter lv (world_of r) = counter lv w
  | None =>
      r = (Panicked "runtime error: invalid memory address or nil pointer dereference", w)
  end.
Proof.
  intros r. subst r.
  destruct (pkg_l w) as [lg |] eqn:Hl.
  - destruct (Infow_with_logger msg keysAndValues w lg Hl) as (w' & Hrun & Ha & Hc).
    rewrite Hrun. simpl.
    split; [reflexivity |]. split; [exact Ha |]. split.
    + rewrite (counter_after_insert InfoLevel InfoLevel _ w _ Hc). now rewrite decide_True.
    + intros lv Hne. rewrite (counter_after_insert InfoLevel lv _ w _ Hc).
      rewrite decide_False; [reflexivity | congruence].
  - rewrite Infow_unfold, Hl. reflexivity.
Qed.

(** ** CreateProductionLogger and init: the fatal paths *)

Lemma CreateProductionLogger_unfold dir jsonConsole lvl toDisk w :
  let config := productionConfig dir jsonConsole lvl toDisk in
  CreateProductionLogger dir jsonConsole lvl toDisk w =
  if forallb (opens w) (OutputPaths config ++ ErrorOutputPaths config)
  then (Returned (mkSugared (Level_ config) [] (OutputPaths config)
                            (ErrorOutputPaths config) 1), w)
  else (Exited 1,
        add_stdlog "couldn't open sink"
          (set_counters (fun vec => <[fatalLineCounter := S (value_at fatalLineCounter vec)]> vec)
                        w)).
Proof.
  intros config. subst config.
  unfold CreateProductionLogger, Config_Build, bind at 1.
  destruct (forallb _ _); reflexivity.
Qed.

(** X6: when every destination of its configuration opens,
    [CreateProductionLogger] returns and leaves the state, counters
    included, as it was.  When one does not, it adds one to the fatal
    counter only, prints one line through the standard [log] package and ends
    the process with status 1; no record is handed to the engine. *)
Theorem CreateProductionLogger_failure_is_counted dir jsonConsole lvl toDisk w :
  let config := productionConfig dir jsonConsole lvl toDisk in
  let r := CreateProductionLogger dir jsonConsole lvl toDisk w in
  if forallb (opens w) (OutputPaths config ++ ErrorOutputPaths config)
  then returns (outcome_of r) = true /\ world_of r = w
  else
    outcome_of r = Exited 1 /\
    counter FatalLevel (world_of r) = S (counter FatalLevel w) /\
    (forall lv, lv <> FatalLevel -> counter lv (world_of r) = counter lv w) /\
    (exists line, stdlog (world_of r) = stdlog w ++ [line]) /\
    attempts (world_of r) = attempts w.
Proof.
  intros config r. subst config r. rewrite CreateProductionLogger_unfold.
  destruct (forallb _ _) eqn:Hopen; [split; reflexivity |].
  simpl. split; [reflexivity |].
  match goal with
  | |- context [counter FatalLevel ?w1] =>
      assert (Hc : counters w1
                   = <[Level_String FatalLevel := S (counter FatalLevel w)]> (counters w))
        by reflexivity
  end.
  split; [| split; [| split]].
  - rewrite (counter_after_insert FatalLevel FatalLevel _ w _ Hc). now rewrite decide_True.
  - intros lv Hne. rewrite (counter_after_insert FatalLevel lv _ w _ Hc).
    rewrite decide_False; [reflexivity | congruence].
  - eexists. reflexivity.
  - reflexivity.
Qed.

(** What a run of [init] comes to: the package logger installed, or the
    fatal counter incremented, one line printed and the process ended. *)
Lemma init_run env w :
  init env w =
  if init_succeeds env w
  then (Returned tt,
        set_pkg_l (Some (mklogger (mkSugared
                     (Level_UnmarshalText InfoLevel (LOG_LEVEL env)).1 []
                     ["stderr"] ["stderr"] 1))) w)
  else (Exited 1,
        add_stdlog
          match RegisterSink_pretty env, registerOSSinks env,
                (Level_UnmarshalText InfoLevel (LOG_LEVEL env)).2 with
          | Some e, _, _ => Sprintf "failed to register pretty printer %+v" [VError e]
          | None, Some e, _ => Sprintf "failed to register os specific sinks %+v" [VError e]
          | None, None, Some e => Error e
          | None, None, None => "couldn't open sink"
          end
          (set_counters
             (fun vec => <[fatalLineCounter := S (value_at fatalLineCounter vec)]> vec) w)).
Proof.
  unfold init, init_succeeds.
  destruct (RegisterSink_pretty env) as [e1 |]; [reflexivity |].
  destruct (registerOSSinks env) as [e2 |]; [reflexivity |].
  destruct (Level_UnmarshalText InfoLevel (LOG_LEVEL env)) as [level [e3 |]];
    [reflexivity |].
  simpl. unfold bind, ret, Config_Build. simpl.
  destruct (opens w "stderr"); reflexivity.
Qed.

(** X7: [init] either gets past its four checks (the two sink
    registrations, the level read from [LOG_LEVEL], the build of the engine)
    and installs a package logger at that level, writing to [stderr], with
    the state otherwise untouched; or it fails one of them, adds one to the
    fatal counter only, prints one line, ends the process with status 1 and
    leaves the package logger as it was. *)
Theorem init_installs_logger_or_dies env w :
  let r := init env w in
  if init_succeeds env w
  then
    r = (Returned tt,
         set_pkg_l (Some (mklogger (mkSugared
                      (Level_UnmarshalText InfoLevel (LOG_LEVEL env)).1 []
                      ["stderr"] ["stderr"] 1))) w)
  else
    outcome_of r = Exited 1 /\
    counter FatalLevel (world_of r) = S (counter FatalLevel w) /\
    (forall lv, lv <> FatalLevel -> counter lv (world_of r) = counter lv w) /\
    pkg_l (world_of r) = pkg_l w /\
    (exists line, stdlog (world_of r) = stdlog w ++ [line]) /\
    attempts (world_of r) = attempts w.
Proof.
  intros r. subst r. rewrite init_run.
  destruct (init_succeeds env w); [reflexivity |].
  simpl. split; [reflexivity |].
  match goal with
  | |- context [counter FatalLevel ?w1] =>
      assert (Hc : counters w1
                   = <[Level_String FatalLevel := S (counter FatalLevel w)]> (counters w))
        by reflexivity
  end.
  split; [| split; [| split; [| split]]].
  - rewrite (counter_after_insert FatalLevel FatalLevel _ w _ Hc). now rewrite decide_True.
  - intros lv Hne. rewrite (counter_after_insert FatalLevel lv _ w _ Hc).
    rewrite decide_False; [reflexivity | congruence].
  - reflexivity.
  - eexists. reflexivity.
  - reflexivity.
Qed.

(** The name of a level reads back as the level. *)
Lemma unmarshalText_Level_String lv : unmarshalText (Level_String lv) = Some lv.
Proof. destruct lv; reflexivity. Qed.

(** X8: when the sinks register and [stderr] opens, [init] installs a
    package logger at the level whose name [LOG_LEVEL] holds, for each of the
    seven level names as [Level.String] prints them, and at Info level when
    [LOG_LEVEL] is empty or unset. *)
Theorem init_level_from_LOG_LEVEL env lv w :
  RegisterSink_pretty env = None ->
  registerOSSinks env = None ->
  opens w "stderr" = true ->
  LOG_LEVEL env = Level_String lv \/ (LOG_LEVEL env = "" /\ lv = InfoLevel) ->
  init env w
  = (Returned tt,
     set_pkg_l (Some (mklogger (mkSugared lv [] ["stderr"] ["stderr"] 1))) w).
Proof.
  intros H1 H2 Hopen Hname.
  assert (Hlv : Level_UnmarshalText InfoLevel (LOG_LEVEL env) = (lv, None)).
  { unfold Level_UnmarshalText.
    destruct Hname as [-> | [-> ->]]; [| reflexivity].
    now rewrite unmarshalText_Level_String. }
  rewrite init_run. unfold init_succeeds. rewrite H1, H2, Hlv. simpl.
  now rewrite Hopen.
Qed.

(** X9: after an [init] that gets past its checks, the package-level
    [Infow] returns: it hands one record with its message to the engine at
    Info level and leaves the info counter two higher, every other counter
    as it was. *)
Theorem Infow_after_init env msg keysAndValues w :
  init_succeeds env w = true ->
  let r := (init env ;;; Infow msg keysAndValues) w in
  outcome_of r = Returned tt /\
  (exists e, attempts (world_of r) = attempts w ++ [e] /\
             e_level e = InfoLevel /\ e_msg e = msg) /\
  counter InfoLevel (world_of r) = S (S (counter InfoLevel w)) /\
  forall lv, lv <> InfoLevel -> counter lv (world_of r) = counter lv w.
Proof.
  intros Hok r. subst r.
  set (lg := mklogger (mkSugared (Level_UnmarshalText InfoLevel (LOG_LEVEL env)).1 []
                                 ["stderr"] ["stderr"] 1)).
  destruct (Infow_with_logger msg keysAndValues (set_pkg_l (Some lg) w) lg eq_refl)
    as (w' & Hrun & Ha & Hc).
  assert (Hall : (init env ;;; Infow msg keysAndValues) w = (Returned tt, w')).
  { unfold bind. rewrite init_run, Hok. exact Hrun. }
  rewrite Hall. unfold outcome_of, world_of. simpl in *.
  split; [reflexivity |]. split.
  { eexists. split; [exact Ha |]. split; reflexivity. }
  split.
  - rewrite (counter_after_insert InfoLevel InfoLevel _ w _ Hc). now rewrite decide_True.
  - intros lv Hne. rewrite (counter_after_insert InfoLevel lv _ w _ Hc).
    rewrite decide_False; [reflexivity | congruence].
Qed.

(** ** Runs of calls *)

Lemma plain_always_returns op : plain_emission op = true -> always_returns op = true.
Proof. destruct op; simpl; intros H; try reflexivity; try exact H; discriminate H. Qed.

(** One call of a Debug, Info, Warn or Error method: it returns, with one
    more record and one more line counted at its level. *)
Lemma exec_plain_step log op w :
  plain_emission op = true ->
  exists lv w1,
    emission_level op = Some lv /\
    exec log op w = (Returned tt, w1) /\
    length (attempts w1) = S (length (attempts w)) /\
    forall lv', counter lv' w1 = if decide (lv = lv') then S (counter lv w) else counter lv' w.
Proof.
  intros Hp.
  destruct (emission_level op) as [lv |] eqn:Hlv;
    [| unfold plain_emission in Hp; rewrite Hlv in Hp; discriminate Hp].
  destruct (plain_emission_level op lv Hp Hlv) as [Hterm _].
  pose proof (exec_always_returns log op w (plain_always_returns op Hp)) as Ho.
  pose proof (exec_emission_counts log op lv w Hlv Hterm) as Hc.
  destruct (exec_emission_attempts log op lv w Hlv) as (e & Ha & _).
  destruct (exec log op w) as [o w1]. unfold outcome_of, world_of in *. simpl in *.
  subst o. exists lv, w1. split; [reflexivity |]. split; [reflexivity |]. split.
  - rewrite Ha, length_app. simpl. lia.
  - intros lv'. apply (counter_after_insert lv lv' _ w w1 Hc).
Qed.

(** X10: after any sequence of calls of the Debug, Info, Warn and Error
    methods on one logger, the run has returned, the counter of every level
    has grown by the number of calls that name that level, and the engine
    has been handed one record per call. *)
Theorem counters_count_the_calls log ops w :
  forallb plain_emission ops = true ->
  let r := run_all log ops w in
  outcome_of r = Returned tt /\
  (forall lv, counter lv (world_of r) = counter lv w + count_level lv ops) /\
  length (attempts (world_of r)) = length (attempts w) + length ops.
Proof.
  revert w. induction ops as [| op rest IH]; intros w Hall r; subst r.
  - simpl. repeat split; intros; unfold count_level; simpl; lia.
  - simpl in Hall. apply andb_true_iff in Hall as [Hp Hrest].
    destruct (exec_plain_step log op w Hp) as (lv0 & w1 & Hlv & Hrun & Ha & Hc).
    assert (Hstep : run_all log (op :: rest) w = run_all log rest w1).
    { simpl. unfold bind. now rewrite Hrun. }
    rewrite Hstep.
    destruct (IH w1 Hrest) as (Ho & Hcnt & Hlen).
    split; [exact Ho |]. split.
    + intros lv. rewrite Hcnt, Hc. unfold count_level. simpl. rewrite Hlv.
      destruct (decide (lv0 = lv)) as [-> | Hne].
      * rewrite bool_decide_eq_true_2 by reflexivity. simpl. lia.
      * rewrite bool_decide_eq_false_2 by congruence. lia.
    + rewrite Hlen, Ha. simpl. lia.
Qed.

End Facade.

(** ** The operations run on the sample inputs *)

(** C1, at the inputs where it fails: [Panic("boom")], [Panicf("boom")] and
    [Fatalf("boom")] hand their record to the engine and end in a panic or in
    the exit of the process, and the counter of their level is still at
    zero afterwards, while [Fatal("boom")], which counts before it emits,
    leaves the fatal counter at one. *)
Theorem Panic_Panicf_Fatalf_skip_increment :
  let w := sample_world in
  let log := sample_logger in
  let after_Panic := logger_Panic sample_Sprintf log [VString "boom"] w in
  let after_Panicf := logger_Panicf sample_Sprintf log "boom" [] w in
  let after_Fatalf := logger_Fatalf sample_Sprintf log "boom" [] w in
  let after_Fatal := logger_Fatal sample_Sprintf log [VString "boom"] w in
  (outcome_of after_Panic = Panicked "boom" /\
   attempts (world_of after_Panic) = [mkEntry PanicLevel "boom" []] /\
   counter PanicLevel (world_of after_Panic) = 0) /\
  (outcome_of after_Panicf = Panicked "boom" /\
   attempts (world_of after_Panicf) = [mkEntry PanicLevel "boom" []] /\
   counter PanicLevel (world_of after_Panicf) = 0) /\
  (outcome_of after_Fatalf = Exited 1 /\
   attempts (world_of after_Fatalf) = [mkEntry FatalLevel "boom" []] /\
   counter FatalLevel (world_of after_Fatalf) = 0) /\
  (outcome_of after_Fatal = Exited 1 /\
   counter FatalLevel (world_of after_Fatal) = 1).
Proof. vm_compute. repeat split; reflexivity. Qed.

(** C2, at the input where it fails: [PanicIf] of a non-nil error hands the
    error to the engine at Panic level and panics with its message, and the
    panic counter is still at zero afterwards; [PanicIf(nil)] does nothing. *)
Theorem PanicIf_skips_increment :
  let w := sample_world in
  let r := logger_PanicIf sample_Sprintf sample_logger (Some (ErrNew "boom")) w in
  outcome_of r = Panicked "boom" /\
  attempts (world_of r) = [mkEntry PanicLevel "boom" []] /\
  counter PanicLevel (world_of r) = 0 /\
  counters (world_of r) = counters w /\
  logger_PanicIf sample_Sprintf sample_logger None w = (Returned tt, w).
Proof. vm_compute. repeat split; reflexivity. Qed.

(** C3, at the input where it fails: after [WithSpan(span)] with a non-nil
    span, a record emitted through the same logger carries no field at all,
    so no [TraceID]; the call returned nothing and left the state as it was.
    The engine's [With], whose result [WithSpan] drops, does produce a handle
    with the field. *)
Theorem WithSpan_drops_the_trace_field :
  let w := sample_world in
  let log := sample_logger in
  let r := (logger_WithSpan log sample_span ;;;
            logger_Info sample_Sprintf log [VString "started"]) w in
  logger_WithSpan log sample_span w = (Returned tt, w) /\
  logger_WithSpan log None w = (Returned tt, w) /\
  attempts (world_of r) = [mkEntry InfoLevel "started" []] /\
  outcome_of (Sugared_With (l log)
                [VString TraceId; VString "4bf92f3577b34da6a3ce929d0e0e4736"] w)
  = Returned (mkSugared InfoLevel
                [("TraceID", VString "4bf92f3577b34da6a3ce929d0e0e4736")]
                ["stderr"] ["stderr"] 1).
Proof. vm_compute. repeat split; reflexivity. Qed.

(** ** Instances of the conditional theorems *)

Lemma ErrorIfCalling_logs_named_error_witness :
  fn_call closeFile sample_world
  = (Returned (Some (ErrNew "disk full")), set_vars (<["closed" := 1%Z]>) sample_world) /\
  attempts (world_of (logger_ErrorIfCalling sample_Sprintf sample_logger closeFile
                        ["cleanup"] sample_world))
  = [mkEntry ErrorLevel "cleanup: main.closeFile: disk full" []] /\
  contains "main.closeFile" "cleanup: main.closeFile: disk full" /\
  counter ErrorLevel (world_of (logger_ErrorIfCalling sample_Sprintf sample_logger
                                  closeFile ["cleanup"] sample_world)) = 1.
Proof.
  split; [reflexivity |].
  pose proof (ErrorIfCalling_logs_named_error sample_Sprintf sample_logger closeFile
                ["cleanup"] sample_world (Some (ErrNew "disk full"))
                (set_vars (<["closed" := 1%Z]>) sample_world) eq_refl)
    as (_ & Ha & Hn & Hc).
  split; [exact Ha |]. split; [exact Hn |].
  unfold counter. rewrite Hc. reflexivity.
Defined.

Lemma counters_never_decrease_witness :
  (forall f, callback_of (OpErrorIfCalling closeFile []) = Some f ->
             preserves bank_le (fn_call f)) /\
  bank_le sample_world
          (world_of (exec sample_Sprintf sample_logFileURI sample_logger
                          (OpErrorIfCalling closeFile []) sample_world)).
Proof.
  assert (H : forall f, callback_of (OpErrorIfCalling closeFile []) = Some f ->
                        preserves bank_le (fn_call f)).
  { intros f Hf. injection Hf as <-. intros w c. simpl. lia. }
  split; [exact H |].
  apply (counters_never_decrease sample_Sprintf sample_logFileURI sample_logger
           (OpErrorIfCalling closeFile []) sample_world H).
Defined.

Lemma dPanic_counter_never_incremented_witness :
  (forall f, callback_of (OpErrorIfCalling closeFile []) = Some f ->
             preserves (keeps DPanicLevel) (fn_call f)) /\
  counter DPanicLevel
          (world_of (exec sample_Sprintf sample_logFileURI sample_logger
                          (OpErrorIfCalling closeFile []) sample_world))
  = counter DPanicLevel sample_world.
Proof.
  assert (H : forall f, callback_of (OpErrorIfCalling closeFile []) = Some f ->
                        preserves (keeps DPanicLevel) (fn_call f)).
  { intros f Hf. injection Hf as <-. intros w. reflexivity. }
  split; [exact H |].
  apply (dPanic_counter_never_incremented sample_Sprintf sample_logFileURI
           sample_logger (OpErrorIfCalling closeFile []) sample_world H).
Defined.

(** ** Instances of the further conditional theorems *)

Lemma emission_methods_count_once_witness :
  let op := OpWarnw "slow" [VString "ms"; VInt 20] in
  emission_level op = Some WarnLevel /\
  increment_after_terminal op = false /\
  counter WarnLevel
          (world_of (exec sample_Sprintf sample_logFileURI sample_logger op sample_world))
  = 1.
Proof.
  intros op. split; [reflexivity |]. split; [reflexivity |].
  apply (emission_methods_count_once sample_Sprintf sample_logFileURI sample_logger
           op WarnLevel sample_world eq_refl eq_refl).
Defined.


Lemma undelivered_emissions_still_count_witness :
  let op := OpDebug [VString "cache miss"] in
  let w' := world_of (exec sample_Sprintf sample_logFileURI sample_logger op sample_world) in
  plain_emission op = true /\
  emission_level op = Some DebugLevel /\
  Enabled (s_level (l sample_logger)) DebugLevel = false /\
  delivered w' = [] /\
  counter DebugLevel w' = 1.
Proof.
  intros op w'. split; [reflexivity |]. split; [reflexivity |]. split; [reflexivity |].
  apply (undelivered_emissions_still_count sample_Sprintf sample_logFileURI sample_logger
           op DebugLevel sample_world eq_refl eq_refl (or_introl eq_refl)).
Defined.

Lemma init_level_from_LOG_LEVEL_witness :
  RegisterSink_pretty sample_startup = None /\
  registerOSSinks sample_startup = None /\
  opens sample_world "stderr" = true /\
  LOG_LEVEL sample_startup = Level_String WarnLevel /\
  pkg_l (world_of (init sample_Sprintf sample_ToLower sample_startup sample_world))
  = Some (mklogger (mkSugared WarnLevel [] ["stderr"] ["stderr"] 1)).
Proof.
  split; [reflexivity |]. split; [reflexivity |]. split; [reflexivity |].
  split; [reflexivity |].
  rewrite (init_level_from_LOG_LEVEL sample_Sprintf sample_ToLower sample_startup
             WarnLevel sample_world eq_refl eq_refl eq_refl (or_introl eq_refl)).
  reflexivity.
Defined.

Lemma Infow_after_init_witness :
  init_succeeds sample_Sprintf sample_ToLower sample_startup sample_world = true /\
  counter InfoLevel
          (world_of ((init sample_Sprintf sample_ToLower sample_startup ;;;
                      Infow sample_Sprintf "ready" []) sample_world))
  = 2.
Proof.
  split; [reflexivity |].
  apply (Infow_after_init sample_Sprintf sample_ToLower sample_startup "ready" []
           sample_world eq_refl).
Defined.

Lemma counters_count_the_calls_witness :
  forallb plain_emission sample_calls = true /\
  (let w' := world_of (run_all sample_Sprintf sample_logFileURI sample_logger
                               sample_calls sample_world) in
   counter InfoLevel w' = 3 /\ counter DebugLevel w' = 1 /\ counter WarnLevel w' = 1 /\
   counter ErrorLevel w' = 0 /\ length (attempts w') = 5).
Proof.
  split; [reflexivity |].
  destruct (counters_count_the_calls sample_Sprintf sample_logFileURI sample_logger
              sample_calls sample_world eq_refl) as (_ & Hc & Ha).
  repeat split; first [rewrite Hc; reflexivity | rewrite Ha; reflexivity].
Defined.
